(** * google.genai.types: a shallow embedding of the typed value model

    The development follows [google/genai/types.py]: the [Part] value and
    its constructors, the [text] accessor of [GenerateContentResponse], the
    job-state literal lists with the [has_ended] / [has_succeeded]
    properties of [TuningJob], and the reference-image constructors.  The
    request paths of the [batches] and [caches] modules, whose code is not
    part of the sources at hand, are modelled separately at the end. *)

From Stdlib Require Import ZArith QArith.
From Stdlib Require Import Strings.Byte Strings.Ascii Strings.String.
From stdpp Require Import base option list strings pretty gmap.

Local Open Scope string_scope.

(** ** Python results and exceptions *)

(** The exceptions raised by [types.py]. *)
Inductive PyException : Type :=
  | ValueError (msg : string)
  | RuntimeError (msg : string).

Definition exception_message (e : PyException) : string :=
  match e with
  | ValueError msg => msg
  | RuntimeError msg => msg
  end.

(** A call either returns a value or raises. *)
Inductive Result (A : Type) : Type :=
  | Return (a : A)
  | Raise (e : PyException).
Arguments Return {A} a.
Arguments Raise {A} e.

Definition raises {A} (r : Result A) : bool :=
  match r with
  | Return _ => false
  | Raise _ => true
  end.

(** [ValueError] is how the library signals a locally detected invalid
    argument. *)
Definition is_invalid_argument (e : PyException) : bool :=
  match e with
  | ValueError _ => true
  | RuntimeError _ => false
  end.

(** [bytes] *)
Definition bytes := list byte.

(** Values of type [Any] found in [dict[str, Any]] fields. *)
#[warnings="-register-all"] Inductive PyValue : Type :=
  | PyNone
  | PyBool (b : bool)
  | PyInt (z : Z)
  | PyStr (s : string)
  | PyBytes (b : bytes)
  | PyList (l : list PyValue)
  | PyDict (d : gmap string PyValue).

(** ** The payload models of a [Part] *)

Record VideoMetadata := {
  vm_end_offset : option string;
  vm_start_offset : option string;
}.

Record CodeExecutionResult := {
  cer_outcome : option string;
  cer_output : option string;
}.

Record ExecutableCode := {
  ec_code : option string;
  ec_language : option string;
}.

Record FileData := {
  fd_file_uri : option string;
  fd_mime_type : option string;
}.

Record FunctionCall := {
  fc_args : option (gmap string PyValue);
  fc_name : option string;
}.

Record FunctionResponse := {
  fr_name : option string;
  fr_response : option (gmap string PyValue);
}.

Record Blob := {
  blob_data : option bytes;
  blob_mime_type : option string;
}.

(** ** [Part] *)

(** The fields in declaration order; every one is [Optional] with default
    [None]. *)
Record Part := {
  video_metadata : option VideoMetadata;
  code_execution_result : option CodeExecutionResult;
  executable_code : option ExecutableCode;
  file_data : option FileData;
  function_call : option FunctionCall;
  function_response : option FunctionResponse;
  inline_data : option Blob;
  text : option string;
}.

(** [Part(...)] with keyword arguments.  The class body declares eight
    optional fields and no validator, so the pydantic constructor only
    checks each keyword against its annotation (which the field types
    above already impose) and stores it; an omitted keyword is the [None]
    default. *)
Definition Part_init
    (video_metadata : option VideoMetadata)
    (code_execution_result : option CodeExecutionResult)
    (executable_code : option ExecutableCode)
    (file_data : option FileData)
    (function_call : option FunctionCall)
    (function_response : option FunctionResponse)
    (inline_data : option Blob)
    (text : option string) : Result Part :=
  Return {| video_metadata := video_metadata;
            code_execution_result := code_execution_result;
            executable_code := executable_code;
            file_data := file_data;
            function_call := function_call;
            function_response := function_response;
            inline_data := inline_data;
            text := text |}.

Definition is_set {A} (o : option A) : nat :=
  match o with
  | Some _ => 1
  | None => 0
  end.

(** How many variant fields of a part hold a value. *)
Definition populated_count (p : Part) : nat :=
  is_set (video_metadata p) + is_set (code_execution_result p)
  + is_set (executable_code p) + is_set (file_data p)
  + is_set (function_call p) + is_set (function_response p)
  + is_set (inline_data p) + is_set (text p).

(** The number of populated fields other than [text]. *)
Definition non_text_count (p : Part) : nat :=
  is_set (video_metadata p) + is_set (code_execution_result p)
  + is_set (executable_code p) + is_set (file_data p)
  + is_set (function_call p) + is_set (function_response p)
  + is_set (inline_data p).

(** A part with only its text field populated. *)
Definition is_text_only (p : Part) : Prop :=
  non_text_count p = 0 ∧ is_Some (text p).

(** A part with some field other than [text] populated. *)
Definition has_non_text_field (p : Part) : Prop :=
  non_text_count p ≠ 0.

(** The names of the fields other than [text]. *)
Definition non_text_fields : list string :=
  [ "video_metadata"; "code_execution_result"; "executable_code";
    "file_data"; "function_call"; "function_response"; "inline_data" ].

(** In-order concatenation. *)
Definition join (l : list string) : string := foldr String.append "" l.

(** The text values of the parts that have one, in order. *)
Definition text_values (ps : list Part) : list string := omap text ps.


Definition Part_from_text (text : string) : Result Part :=
  Part_init None None None None None None None (Some text).

Definition Part_from_bytes (data : bytes) (mime_type : string) : Result Part :=
  let inline_data := {| blob_data := Some data; blob_mime_type := Some mime_type |} in
  Part_init None None None None None None (Some inline_data) None.






(** ** [BaseModel.dict()] on a part *)

Definition dump_str (o : option string) : PyValue := from_option PyStr PyNone o.

Definition dump_model {A} (dump : A → PyValue) (o : option A) : PyValue :=
  from_option dump PyNone o.

Definition VideoMetadata_dict (v : VideoMetadata) : PyValue :=
  PyDict (<["end_offset" := dump_str (vm_end_offset v)]>
         (<["start_offset" := dump_str (vm_start_offset v)]> ∅)).

Definition CodeExecutionResult_dict (v : CodeExecutionResult) : PyValue :=
  PyDict (<["outcome" := dump_str (cer_outcome v)]>
         (<["output" := dump_str (cer_output v)]> ∅)).

Definition ExecutableCode_dict (v : ExecutableCode) : PyValue :=
  PyDict (<["code" := dump_str (ec_code v)]>
         (<["language" := dump_str (ec_language v)]> ∅)).

Definition FileData_dict (v : FileData) : PyValue :=
  PyDict (<["file_uri" := dump_str (fd_file_uri v)]>
         (<["mime_type" := dump_str (fd_mime_type v)]> ∅)).

Definition FunctionCall_dict (v : FunctionCall) : PyValue :=
  PyDict (<["args" := dump_model PyDict (fc_args v)]>
         (<["name" := dump_str (fc_name v)]> ∅)).

Definition FunctionResponse_dict (v : FunctionResponse) : PyValue :=
  PyDict (<["name" := dump_str (fr_name v)]>
         (<["response" := dump_model PyDict (fr_response v)]> ∅)).

Definition Blob_dict (v : Blob) : PyValue :=
  PyDict (<["data" := dump_model PyBytes (blob_data v)]>
         (<["mime_type" := dump_str (blob_mime_type v)]> ∅)).

(** All items of [part.dict()], in field order. *)
Definition Part_items (part : Part) : list (string * PyValue) :=
  [ ("video_metadata", dump_model VideoMetadata_dict (video_metadata part));
    ("code_execution_result", dump_model CodeExecutionResult_dict (code_execution_result part));
    ("executable_code", dump_model ExecutableCode_dict (executable_code part));
    ("file_data", dump_model FileData_dict (file_data part));
    ("function_call", dump_model FunctionCall_dict (function_call part));
    ("function_response", dump_model FunctionResponse_dict (function_response part));
    ("inline_data", dump_model Blob_dict (inline_data part));
    ("text", dump_str (text part)) ].

(** [part.dict(exclude=...).items()] *)
Definition Part_dict (part : Part) (exclude : list string) : list (string * PyValue) :=
  filter (λ item, item.1 ∉ exclude) (Part_items part).

(** [value is not None] *)
Definition is_not_None (value : PyValue) : bool :=
  match value with
  | PyNone => false
  | _ => true
  end.

(** ** [Content], [Candidate], [GenerateContentResponse] *)

Record Content := {
  parts : option (list Part);
  role : option string;
}.

(** Of the candidate only [content] is read below; the scalar fields are
    kept, the metadata sub-models are left out. *)
Record Candidate := {
  content : option Content;
  finish_message : option string;
  token_count : option Z;
  finish_reason : option string;
  index : option Z;
}.

(** [prompt_feedback], [usage_metadata] and [parsed] are not read by the
    [text] property and are left out. *)
Record GenerateContentResponse := {
  candidates : option (list Candidate);
  model_version : option string;
}.

(** The message of the [ValueError] of the [text] property; the source
    appends the repr of the offending part, which is not modelled. *)
Definition text_only_error (field_name : string) : PyException :=
  ValueError ("GenerateContentResponse.text only supports text parts, but got"
              +:+ " " +:+ field_name +:+ " part").

(** The inner loop over [part.dict(exclude={"text"}).items()]. *)
Fixpoint check_no_other_field (items : list (string * PyValue)) : Result unit :=
  match items with
  | [] => Return ()
  | (field_name, field_value) :: items' =>
      if is_not_None field_value
      then Raise (text_only_error field_name)
      else check_no_other_field items'
  end.

(** The outer loop over the parts, threading the local variables [text]
    and [any_text_part_text]; the final [return] is the base case. *)
Fixpoint text_loop (ps : list Part) (text_acc : string) (any_text_part_text : bool)
    : Result (option string) :=
  match ps with
  | [] => Return (if any_text_part_text then Some text_acc else None)
  | part :: ps' =>
      match check_no_other_field (Part_dict part ["text"]) with
      | Raise e => Raise e
      | Return _ =>
          match text part with
          | Some s => text_loop ps' (text_acc +:+ s) true
          | None => text_loop ps' text_acc any_text_part_text
          end
      end
  end.

Definition many_candidates_warning (n : nat) : string :=
  "there are " +:+ pretty n +:+ " candidates, returning text from"
  +:+ " the first candidate.Access response.candidates directly to get"
  +:+ " text from other candidates.".

(** The [text] property, with the records handed to [logging.warning]. *)
Definition GenerateContentResponse_text_logged (self : GenerateContentResponse)
    : list string * Result (option string) :=
  match candidates self with
  | None | Some [] => ([], Return None)
  | Some (first :: others) =>
      match content first with
      | None => ([], Return None)
      | Some c =>
          match parts c with
          | None | Some [] => ([], Return None)
          | Some ps =>
              let n := length (first :: others) in
              (if decide (1 < n) then [many_candidates_warning n] else [],
               text_loop ps "" false)
          end
      end
  end.

Definition GenerateContentResponse_text (self : GenerateContentResponse)
    : Result (option string) :=
  (GenerateContentResponse_text_logged self).2.

(** ** Job states *)

Definition JOB_STATES_SUCCEEDED_VERTEX : list string :=
  [ "JOB_STATE_SUCCEEDED" ].

Definition JOB_STATES_SUCCEEDED_MLDEV : list string :=
  [ "ACTIVE" ].

Definition JOB_STATES_SUCCEEDED : list string :=
  JOB_STATES_SUCCEEDED_VERTEX ++ JOB_STATES_SUCCEEDED_MLDEV.

Definition JOB_STATES_ENDED_VERTEX : list string :=
  [ "JOB_STATE_SUCCEEDED"; "JOB_STATE_FAILED"; "JOB_STATE_CANCELLED";
    "JOB_STATE_EXPIRED" ].

Definition JOB_STATES_ENDED_MLDEV : list string :=
  [ "ACTIVE"; "FAILED" ].

Definition JOB_STATES_ENDED : list string :=
  JOB_STATES_ENDED_VERTEX ++ JOB_STATES_ENDED_MLDEV.

(** [value in states] for an optional string: [None] is in no list of
    strings. *)
Definition py_in (value : option string) (states : list string) : bool :=
  match value with
  | Some s => bool_decide (s ∈ states)
  | None => false
  end.

(** ** [TuningJob] *)

(** The identity, state and descriptive fields; timestamps are seconds
    since the epoch.  [state] holds the literal as the backend sent it.
    The job carries no record of the backend it came from. *)
Record TuningJob := {
  tj_name : option string;
  state : option string;
  create_time : option Z;
  start_time : option Z;
  end_time : option Z;
  update_time : option Z;
  description : option string;
  base_model : option string;
}.

Definition has_ended (self : TuningJob) : bool :=
  py_in (state self) JOB_STATES_ENDED.

Definition has_succeeded (self : TuningJob) : bool :=
  py_in (state self) JOB_STATES_SUCCEEDED.

(** The two backends: the direct developer endpoint (mldev) and the hosted
    cloud-platform endpoint (vertex). *)
Inductive Backend : Type :=
  | Direct
  | Hosted.

#[global] Instance Backend_eq_dec : EqDecision Backend.
Proof. solve_decision. Defined.

(** The per-backend literal lists. *)
Definition states_ended_of (b : Backend) : list string :=
  match b with
  | Hosted => JOB_STATES_ENDED_VERTEX
  | Direct => JOB_STATES_ENDED_MLDEV
  end.

Definition states_succeeded_of (b : Backend) : list string :=
  match b with
  | Hosted => JOB_STATES_SUCCEEDED_VERTEX
  | Direct => JOB_STATES_SUCCEEDED_MLDEV
  end.

(** The predicates as the specification words them: membership in the
    list of the backend the job belongs to.  They are compared with
    [has_ended] and [has_succeeded] above. *)
Definition has_ended_per_backend (b : Backend) (job : TuningJob) : bool :=
  py_in (state job) (states_ended_of b).

Definition has_succeeded_per_backend (b : Backend) (job : TuningJob) : bool :=
  py_in (state job) (states_succeeded_of b).

(** [job.state = value] *)
Definition with_state (job : TuningJob) (value : option string) : TuningJob :=
  {| tj_name := tj_name job; state := value; create_time := create_time job;
     start_time := start_time job; end_time := end_time job;
     update_time := update_time job; description := description job;
     base_model := base_model job |}.

(** A job of which only the state is known. *)
Definition job_in_state (s : string) : TuningJob :=
  {| tj_name := None; state := Some s; create_time := None;
     start_time := None; end_time := None; update_time := None;
     description := None; base_model := None |}.

(** ** Reference images *)

Record Image := {
  gcs_uri : option string;
  image_bytes : option bytes;
}.

(** [mask_dilation] is a float between 0 and 1 that is only stored; it is
    kept as a rational. *)
Record MaskReferenceConfig := {
  mask_mode : option string;
  segmentation_classes : option (list Z);
  mask_dilation : option Q;
}.

Record ControlReferenceConfig := {
  control_type : option string;
  enable_control_image_computation : option bool;
}.

Record StyleReferenceConfig := {
  style_description : option string;
}.

Record SubjectReferenceConfig := {
  subject_type : option string;
  subject_description : option string;
}.

Record RawReferenceImage := {
  raw_reference_image : option Image;
  raw_reference_id : option Z;
  raw_reference_type : option string;
}.

Record MaskReferenceImage := {
  mask_reference_image : option Image;
  mask_reference_id : option Z;
  mask_reference_type : option string;
  mask_config : option MaskReferenceConfig;
  mask_image_config : option MaskReferenceConfig;
}.

Record ControlReferenceImage := {
  control_reference_image : option Image;
  control_reference_id : option Z;
  control_reference_type : option string;
  control_config : option ControlReferenceConfig;
  control_image_config : option ControlReferenceConfig;
}.

Record StyleReferenceImage := {
  style_reference_image : option Image;
  style_reference_id : option Z;
  style_reference_type : option string;
  style_config : option StyleReferenceConfig;
  style_image_config : option StyleReferenceConfig;
}.

Record SubjectReferenceImage := {
  subject_reference_image : option Image;
  subject_reference_id : option Z;
  subject_reference_type : option string;
  subject_config : option SubjectReferenceConfig;
  subject_image_config : option SubjectReferenceConfig;
}.

(** Each [__init__] takes the image, the id and (but for the raw image) a
    config, calls [super().__init__] with the fixed [reference_type], which
    leaves [config] and the [*_image_config] field at their [None]
    default, and then assigns the config to the [*_image_config] field. *)
Definition RawReferenceImage_init
    (reference_image : option Image) (reference_id : option Z) : RawReferenceImage :=
  {| raw_reference_image := reference_image;
     raw_reference_id := reference_id;
     raw_reference_type := Some "REFERENCE_TYPE_RAW" |}.

Definition set_mask_image_config (self : MaskReferenceImage)
    (value : option MaskReferenceConfig) : MaskReferenceImage :=
  {| mask_reference_image := mask_reference_image self;
     mask_reference_id := mask_reference_id self;
     mask_reference_type := mask_reference_type self;
     mask_config := mask_config self;
     mask_image_config := value |}.

Definition MaskReferenceImage_init
    (reference_image : option Image) (reference_id : option Z)
    (config : option MaskReferenceConfig) : MaskReferenceImage :=
  let self :=
    {| mask_reference_image := reference_image;
       mask_reference_id := reference_id;
       mask_reference_type := Some "REFERENCE_TYPE_MASK";
       mask_config := None;
       mask_image_config := None |} in
  set_mask_image_config self config.

Definition set_control_image_config (self : ControlReferenceImage)
    (value : option ControlReferenceConfig) : ControlReferenceImage :=
  {| control_reference_image := control_reference_image self;
     control_reference_id := control_reference_id self;
     control_reference_type := control_reference_type self;
     control_config := control_config self;
     control_image_config := value |}.

Definition ControlReferenceImage_init
    (reference_image : option Image) (reference_id : option Z)
    (config : option ControlReferenceConfig) : ControlReferenceImage :=
  let self :=
    {| control_reference_image := reference_image;
       control_reference_id := reference_id;
       control_reference_type := Some "REFERENCE_TYPE_CONTROL";
       control_config := None;
       control_image_config := None |} in
  set_control_image_config self config.

Definition set_style_image_config (self : StyleReferenceImage)
    (value : option StyleReferenceConfig) : StyleReferenceImage :=
  {| style_reference_image := style_reference_image self;
     style_reference_id := style_reference_id self;
     style_reference_type := style_reference_type self;
     style_config := style_config self;
     style_image_config := value |}.

Definition StyleReferenceImage_init
    (reference_image : option Image) (reference_id : option Z)
    (config : option StyleReferenceConfig) : StyleReferenceImage :=
  let self :=
    {| style_reference_image := reference_image;
       style_reference_id := reference_id;
       style_reference_type := Some "REFERENCE_TYPE_STYLE";
       style_config := None;
       style_image_config := None |} in
  set_style_image_config self config.

Definition set_subject_image_config (self : SubjectReferenceImage)
    (value : option SubjectReferenceConfig) : SubjectReferenceImage :=
  {| subject_reference_image := subject_reference_image self;
     subject_reference_id := subject_reference_id self;
     subject_reference_type := subject_reference_type self;
     subject_config := subject_config self;
     subject_image_config := value |}.

Definition SubjectReferenceImage_init
    (reference_image : option Image) (reference_id : option Z)
    (config : option SubjectReferenceConfig) : SubjectReferenceImage :=
  let self :=
    {| subject_reference_image := reference_image;
       subject_reference_id := reference_id;
       subject_reference_type := Some "REFERENCE_TYPE_SUBJECT";
       subject_config := None;
       subject_image_config := None |} in
  set_subject_image_config self config.

(** ** [CreateCachedContentConfig] *)

(** The expiry-related and scalar fields of the config class; [datetime]
    values are seconds since the epoch.  [system_instruction], [tools] and
    [tool_config] play no part in what follows and are left out. *)
Record CreateCachedContentConfig := {
  http_options : option (gmap string PyValue);
  ttl : option string;
  expire_time : option Z;
  display_name : option string;
}.

(** ** The test tables of [tests/batches] *)

Record TestTableItem := {
  item_name : string;
  item_parameter_name : string;
  exception_if_mldev : option string;
  exception_if_vertex : option string;
}.

Definition _INVALID_BATCH_JOB_NAME : string := "invalid_name".

Module test_cancel.

Definition _BATCH_JOB_NAME : string := "2803006536245313536".

Definition _BATCH_JOB_FULL_RESOURCE_NAME : string :=
  "projects/964831358985/locations/us-central1/" +:+
  "batchPredictionJobs/" +:+ _BATCH_JOB_NAME.

Definition test_table : list TestTableItem :=
  [ {| item_name := "test_cancel_batch_job";
       item_parameter_name := _BATCH_JOB_NAME;
       exception_if_mldev := Some "only supported in the Vertex AI client";
       exception_if_vertex := None |};
    {| item_name := "test_cancel_batch_job_full_resource_name";
       item_parameter_name := _BATCH_JOB_FULL_RESOURCE_NAME;
       exception_if_mldev := Some "only supported in the Vertex AI client";
       exception_if_vertex := None |};
    {| item_name := "test_cancel_batch_job_with_invalid_name";
       item_parameter_name := _INVALID_BATCH_JOB_NAME;
       exception_if_mldev := Some "only supported in the Vertex AI client";
       exception_if_vertex := Some "Invalid batch job name" |} ].

End test_cancel.

Module test_delete.

Definition _BATCH_JOB_NAME : string := "7085929781874655232".

Definition _BATCH_JOB_FULL_RESOURCE_NAME : string :=
  "projects/964831358985/locations/us-central1/" +:+
  "batchPredictionJobs/" +:+ _BATCH_JOB_NAME.

Definition test_table : list TestTableItem :=
  [ {| item_name := "test_delete_batch_job";
       item_parameter_name := _BATCH_JOB_NAME;
       exception_if_mldev := Some "only supported in the Vertex AI client";
       exception_if_vertex := None |};
    {| item_name := "test_delete_batch_job_full_resource_name";
       item_parameter_name := _BATCH_JOB_FULL_RESOURCE_NAME;
       exception_if_mldev := Some "only supported in the Vertex AI client";
       exception_if_vertex := None |};
    {| item_name := "test_delete_batch_job_with_invalid_name";
       item_parameter_name := _INVALID_BATCH_JOB_NAME;
       exception_if_mldev := Some "only supported in the Vertex AI client";
       exception_if_vertex := Some "Invalid batch job name" |} ].

End test_delete.

(** ** Strings *)

(** [needle in haystack] on strings. *)
Fixpoint contains (needle haystack : string) : bool :=
  String.prefix needle haystack ||
  match haystack with
  | EmptyString => false
  | String _ haystack' => contains needle haystack'
  end.

Definition is_digit (c : ascii) : bool :=
  (48 <=? nat_of_ascii c)%nat && (nat_of_ascii c <=? 57)%nat.

Definition digit_value (c : ascii) : Z := Z.of_nat (nat_of_ascii c) - 48.

Fixpoint all_digits (s : string) : bool :=
  match s with
  | EmptyString => true
  | String c s' => is_digit c && all_digits s'
  end.

(** [s.split(sep)]: the segments of [s] between occurrences of [sep];
    [cur] is the segment being read, reversed. *)
Fixpoint split_go (sep : ascii) (s : string) (cur : string) : list string :=
  match s with
  | EmptyString => [String.rev cur]
  | String c s' =>
      if decide (c = sep) then String.rev cur :: split_go sep s' EmptyString
      else split_go sep s' (String c cur)
  end.

Definition split (sep : ascii) (s : string) : list string :=
  split_go sep s EmptyString.

(** * The dispatch core around the types *)

(** The code of the [batches] and [caches] modules is not among the
    sources; what the claims need of them is modelled here from the
    specification's sections 4.2, 4.3, 4.5 and 7. *)

(** Modelled from the spec: the error taxonomy of section 7; the error
    kinds of the core, the code of which is missing here. *)
Inductive ErrorKind : Type :=
  | InvalidArgument
  | NotFound
  | AlreadyExists
  | PermissionDenied
  | FailedPrecondition
  | SchemaMismatch
  | ProtocolViolation
  | UnsupportedOnBackend.

#[global] Instance ErrorKind_eq_dec : EqDecision ErrorKind.
Proof. solve_decision. Defined.

(** Modelled from the spec: the outcome of one call of the core, which is
    terminal to the call when it fails (section 7, propagation policy). *)
Inductive Outcome (A : Type) : Type :=
  | Done (a : A)
  | Failed (kind : ErrorKind) (message : string).
Arguments Done {A} a.
Arguments Failed {A} kind message.

(** Modelled from the spec: the client, which selects its backend once at
    construction and holds the configured project and location. *)
Record Client := {
  backend : Backend;
  project : string;
  location : string;
}.

Module Batches.

(** Modelled from the spec: a bare batch-job ID, a non-empty run of
    decimal digits (the resolver of the [batches] module is missing). *)
Definition is_bare_id (raw_name : string) : bool :=
  negb (String.eqb raw_name "") && all_digits raw_name.

(** Modelled from the spec: the fully-qualified hosted shape
    [projects/{project}/locations/{location}/batchPredictionJobs/{id}],
    with exactly these segment names in this order (the resolver of the
    [batches] module is missing). *)
Definition is_full_path (raw_name : string) : bool :=
  match split "/" raw_name with
  | [ s1; p; s2; l; s3; id ] =>
      String.eqb s1 "projects" && negb (String.eqb p "")
      && String.eqb s2 "locations" && negb (String.eqb l "")
      && String.eqb s3 "batchPredictionJobs" && negb (String.eqb id "")
  | _ => false
  end.

(** Modelled from the spec: the hosted path template of section 6 (the
    resolver of the [batches] module is missing). *)
Definition hosted_path (c : Client) (id : string) : string :=
  "projects/" +:+ project c +:+ "/locations/" +:+ location c
  +:+ "/batchPredictionJobs/" +:+ id.

(** Modelled from the spec: the message of [UnsupportedOnBackend]; the
    wording contains what the rows of the test tables expect of the
    direct backend. *)
Definition unsupported_message : string :=
  "This method is only supported in the Vertex AI client.".

(** Modelled from the spec: the message of [InvalidArgument], naming
    the offending value; the wording contains what the rows of the test
    tables expect of the hosted backend. *)
Definition invalid_name_message (raw_name : string) : string :=
  "Invalid batch job name: " +:+ raw_name +:+ ".".

(** Modelled from the spec: [resolve(BatchJob, raw_name, backend)] of
    section 4.2 and the resolution table of section 8, the code of which
    is missing.  Batch jobs are hosted-only; on the hosted backend a
    fully-qualified path passes through, a bare ID is expanded, and
    anything else is rejected with a message naming the value. *)
Definition resolve (c : Client) (raw_name : string) : Outcome string :=
  match backend c with
  | Direct => Failed UnsupportedOnBackend unsupported_message
  | Hosted =>
      if is_full_path raw_name then Done raw_name
      else if is_bare_id raw_name then Done (hosted_path c raw_name)
      else Failed InvalidArgument (invalid_name_message raw_name)
  end.

(** Modelled from the spec: the two job operations that the claims are
    about (section 4.5). *)
Inductive Operation : Type :=
  | Cancel
  | Delete.

(** Modelled from the spec: a request handed to the transport
    collaborator of section 6, reduced to the operation and the resolved
    resource path. *)
Record Request := {
  operation : Operation;
  path : string;
}.

(** Modelled from the spec: the response of the transport, a status and
    a body. *)
Record Response := {
  status : Z;
  body : string;
}.

Definition Transport : Type := Request → Response.

(** Modelled from the spec: an operation on a named batch job (the code
    of [batches.cancel] and [batches.delete] is missing).  The name is
    resolved first; only a resolved name reaches the transport.  The
    first component lists the requests sent. *)
Definition call (op : Operation) (c : Client) (send : Transport) (name : string)
    : list Request * Outcome Response :=
  match resolve c name with
  | Failed kind message => ([], Failed kind message)
  | Done resolved =>
      let request := {| operation := op; path := resolved |} in
      ([request], Done (send request))
  end.

(** Modelled from the spec: [cancel(name)] of section 4.5. *)
Definition cancel : Client → Transport → string → list Request * Outcome Response :=
  call Cancel.

(** Modelled from the spec: [delete(name)] of section 4.5. *)
Definition delete : Client → Transport → string → list Request * Outcome Response :=
  call Delete.

(** Modelled from the spec: what a row of a test table expects of a
    backend, an exception whose message contains the given text, or none
    (the test helper that reads the rows is missing). *)
Definition expected_of (item : TestTableItem) (b : Backend) : option string :=
  match b with
  | Direct => exception_if_mldev item
  | Hosted => exception_if_vertex item
  end.

(** Modelled from the spec: an outcome compared with the expectation of
    a row (the test helper is missing). *)
Definition meets_expectation {A} (expected : option string) (o : Outcome A) : bool :=
  match expected, o with
  | Some fragment, Failed _ message => contains fragment message
  | None, Done _ => true
  | _, _ => false
  end.

(** Modelled from the spec: running one row against [call] (the test
    helper is missing). *)
Definition row_passes (op : Operation) (c : Client) (send : Transport)
    (item : TestTableItem) : bool :=
  meets_expectation (expected_of item (backend c))
                    (call op c send (item_parameter_name item)).2.

End Batches.

Module Caches.

(** Modelled from the spec: a duration string such as ["86400s"], a
    non-empty run of decimal digits followed by [s] (the transcoder of
    the [caches] module is missing). *)
Fixpoint parse_duration_go (s : string) (acc : Z) (seen_digit : bool) : option Z :=
  match s with
  | EmptyString => None
  | String c s' =>
      if is_digit c then parse_duration_go s' (10 * acc + digit_value c) true
      else if seen_digit && Ascii.eqb c "s" && String.eqb s' "" then Some acc
      else None
  end.

(** Modelled from the spec: the duration of a [ttl] in seconds (the
    transcoder of the [caches] module is missing). *)
Definition parse_duration (s : string) : option Z :=
  parse_duration_go s 0 false.

(** Modelled from the spec: a value of the wire request body. *)
Inductive WireValue : Type :=
  | WireString (s : string)
  | WireTimestamp (t : Z).

(** Modelled from the spec: the diagnostic emitted when both [ttl] and
    [expire_time] are set (section 4.3). *)
Inductive Diagnostic : Type :=
  | TtlIgnoredInFavourOfExpireTime (ignored_ttl : string) (used_expire_time : Z).

(** Modelled from the spec: the precedence between the mutually
    exclusive [ttl] and [expire_time] of section 4.3, unified into one
    absolute expiry (section 3); the transcoder of the [caches] module
    is missing.  [expire_time] wins when both are supplied and a
    diagnostic is recorded; a [ttl] alone becomes [now + ttl]. *)
Definition resolve_expiry (now : Z) (config : CreateCachedContentConfig)
    : list Diagnostic * Outcome (option Z) :=
  match expire_time config, ttl config with
  | Some e, Some t => ([TtlIgnoredInFavourOfExpireTime t e], Done (Some e))
  | Some e, None => ([], Done (Some e))
  | None, Some t =>
      match parse_duration t with
      | Some d => ([], Done (Some (now + d)%Z))
      | None => ([], Failed InvalidArgument ("Invalid ttl: " +:+ t))
      end
  | None, None => ([], Done None)
  end.

(** Modelled from the spec: a field is written to the wire body only
    when it has a value (the transcoder of the [caches] module is
    missing). *)
Definition set_field (key : string) (value : option WireValue)
    (body : gmap string WireValue) : gmap string WireValue :=
  match value with
  | Some v => <[key := v]> body
  | None => body
  end.

(** Modelled from the spec: the cache-create config part of [to_wire]
    (section 4.3), the code of which is missing: the body carries the
    resolved absolute [expire_time] and never a [ttl] field. *)
Definition config_to_wire (now : Z) (config : CreateCachedContentConfig)
    : list Diagnostic * Outcome (gmap string WireValue) :=
  match resolve_expiry now config with
  | (diagnostics, Failed kind message) => (diagnostics, Failed kind message)
  | (diagnostics, Done expiry) =>
      (diagnostics,
       Done (set_field "expire_time" (WireTimestamp <$> expiry)
            (set_field "display_name" (WireString <$> display_name config) ∅)))
  end.

End Caches.

(** * Sample values *)

(** A part carrying both a text and inline data. *)
Definition text_and_inline_data : Result Part :=
  Part_init None None None None None None
    (Some {| blob_data := Some [x89; x50; x4e; x47]%byte;
             blob_mime_type := Some "image/png" |})
    (Some "caption").

(** A response with one candidate made of the given parts. *)
Definition response_of_parts (ps : list Part) : GenerateContentResponse :=
  {| candidates :=
       Some [ {| content := Some {| parts := Some ps; role := Some "model" |};
                 finish_message := None; token_count := None;
                 finish_reason := Some "STOP"; index := Some 0%Z |} ];
     model_version := None |}.

Definition text_part (s : string) : Part :=
  {| video_metadata := None; code_execution_result := None;
     executable_code := None; file_data := None; function_call := None;
     function_response := None; inline_data := None; text := Some s |}.

Definition inline_data_part (data : bytes) (mime_type : string) : Part :=
  {| video_metadata := None; code_execution_result := None;
     executable_code := None; file_data := None; function_call := None;
     function_response := None;
     inline_data := Some {| blob_data := Some data; blob_mime_type := Some mime_type |};
     text := None |}.

(** The clients of the test suite, one per backend. *)
Definition hosted_client : Client :=
  {| backend := Hosted; project := "964831358985"; location := "us-central1" |}.

Definition direct_client : Client :=
  {| backend := Direct; project := ""; location := "" |}.

(** A transport that answers every request with its path. *)
Definition echo_transport : Batches.Transport :=
  λ request, {| Batches.status := 200; Batches.body := Batches.path request |}.

(** The config of [tests/caches/test_create.py] with [ttl] and the
    [_EXPIRE_TIME] of the same file (2024-12-20T00:00:00Z) together. *)
Definition config_with_both : CreateCachedContentConfig :=
  {| http_options := None; ttl := Some "86400s";
     expire_time := Some 1734652800%Z; display_name := Some "test cache" |}.

(** * The live server message *)

(** The class has no field. *)
Inductive LiveServerSetupComplete : Type :=
  | Build_LiveServerSetupComplete.

Record LiveServerContent := {
  model_turn : option Content;
  turn_complete : option bool;
  interrupted : option bool;
}.

Record LiveServerToolCall := {
  function_calls : option (list FunctionCall);
}.

Record LiveServerToolCallCancellation := {
  ids : option (list Z);
}.

Record LiveServerMessage := {
  setup_complete : option LiveServerSetupComplete;
  server_content : option LiveServerContent;
  tool_call : option LiveServerToolCall;
  tool_call_cancellation : option LiveServerToolCallCancellation;
}.

(** The messages of the two [ValueError]s; both start with
    [LiveServerMessage.text] in the source, and the repr of the part that
    the source appends is not modelled. *)
Definition live_text_error (field_name : string) : PyException :=
  ValueError ("LiveServerMessage.text only supports text parts, but got"
              +:+ " " +:+ field_name +:+ " part").

Definition live_data_error (field_name : string) : PyException :=
  ValueError ("LiveServerMessage.text only supports inline_data parts, but got"
              +:+ " " +:+ field_name +:+ " part").

(** The inner loop over [part.dict(exclude=...).items()], raising the
    given error at the first value that is not [None]. *)
Fixpoint check_fields (error : string → PyException)
    (items : list (string * PyValue)) : Result unit :=
  match items with
  | [] => Return ()
  | (field_name, field_value) :: items' =>
      if is_not_None field_value
      then Raise (error field_name)
      else check_fields error items'
  end.

(** The loop of [LiveServerMessage.text], threading the local [text]. *)
Fixpoint live_text_loop (ps : list Part) (text_acc : string) : Result string :=
  match ps with
  | [] => Return text_acc
  | part :: ps' =>
      match check_fields live_text_error (Part_dict part ["text"]) with
      | Raise e => Raise e
      | Return _ =>
          match text part with
          | Some s => live_text_loop ps' (text_acc +:+ s)
          | None => live_text_loop ps' text_acc
          end
      end
  end.

(** Truthiness of a [str]. *)
Definition str_bool (s : string) : bool :=
  match s with
  | EmptyString => false
  | String _ _ => true
  end.

Definition LiveServerMessage_text (self : LiveServerMessage) : Result (option string) :=
  match server_content self with
  | None => Return None
  | Some sc =>
      match model_turn sc with
      | None => Return None
      | Some turn =>
          match parts turn with
          | None | Some [] => Return None
          | Some ps =>
              match live_text_loop ps "" with
              | Raise e => Raise e
              | Return text => Return (if str_bool text then Some text else None)
              end
          end
      end
  end.

(** The loop of [LiveServerMessage.data], threading the local
    [concatenated_data]. *)
Fixpoint live_data_loop (ps : list Part) (concatenated_data : bytes) : Result bytes :=
  match ps with
  | [] => Return concatenated_data
  | part :: ps' =>
      match check_fields live_data_error (Part_dict part ["inline_data"]) with
      | Raise e => Raise e
      | Return _ =>
          match inline_data part with
          | Some blob =>
              match blob_data blob with
              | Some data => live_data_loop ps' (concatenated_data ++ data)%list
              | None => live_data_loop ps' concatenated_data
              end
          | None => live_data_loop ps' concatenated_data
          end
      end
  end.

Definition LiveServerMessage_data (self : LiveServerMessage) : Result (option bytes) :=
  match server_content self with
  | None => Return None
  | Some sc =>
      match model_turn sc with
      | None => Return None
      | Some turn =>
          match parts turn with
          | None | Some [] => Return None
          | Some ps =>
              match live_data_loop ps [] with
              | Raise e => Raise e
              | Return concatenated_data =>
                  Return (if decide (0 < length concatenated_data)
                          then Some concatenated_data else None)
              end
          end
      end
  end.

(** * Vocabulary for the further properties *)

(** The [JobState] literal that annotates [TuningJob.state]. *)
Definition JobState : list string :=
  [ "JOB_STATE_UNSPECIFIED"; "JOB_STATE_QUEUED"; "JOB_STATE_PENDING";
    "JOB_STATE_RUNNING"; "JOB_STATE_SUCCEEDED"; "JOB_STATE_FAILED";
    "JOB_STATE_CANCELLING"; "JOB_STATE_CANCELLED"; "JOB_STATE_PAUSED";
    "JOB_STATE_EXPIRED"; "JOB_STATE_UPDATING";
    "JOB_STATE_PARTIALLY_SUCCEEDED" ].


Definition name_if_set {A} (name : string) (o : option A) : list string :=
  match o with
  | Some _ => [name]
  | None => []
  end.

(** The names of the fields of a part that hold a value, in declaration
    order. *)
Definition populated_fields (p : Part) : list string :=
  name_if_set "video_metadata" (video_metadata p)
  ++ name_if_set "code_execution_result" (code_execution_result p)
  ++ name_if_set "executable_code" (executable_code p)
  ++ name_if_set "file_data" (file_data p)
  ++ name_if_set "function_call" (function_call p)
  ++ name_if_set "function_response" (function_response p)
  ++ name_if_set "inline_data" (inline_data p)
  ++ name_if_set "text" (text p).

(** The populated fields of a part other than the excluded ones. *)
Definition other_fields (exclude : list string) (p : Part) : list string :=
  filter (λ name, name ∉ exclude) (populated_fields p).

(** The first populated field outside [exclude] of the first part that
    has one. *)
Fixpoint first_offending (exclude : list string) (ps : list Part) : option string :=
  match ps with
  | [] => None
  | p :: ps' =>
      match head (other_fields exclude p) with
      | Some name => Some name
      | None => first_offending exclude ps'
      end
  end.

(** The parts that the [text] property of a response reads: those of the
    first candidate, none when the guard at its head returns. *)
Definition first_candidate_parts (self : GenerateContentResponse) : list Part :=
  match candidates self with
  | Some (first :: _) =>
      match content first with
      | Some c => default [] (parts c)
      | None => []
      end
  | _ => []
  end.

(** The parts that [text] and [data] of a live message read. *)
Definition model_turn_parts (self : LiveServerMessage) : list Part :=
  match server_content self with
  | Some sc =>
      match model_turn sc with
      | Some turn => default [] (parts turn)
      | None => []
      end
  | None => []
  end.

(** The inline bytes of the parts that have some, in order. *)
Definition data_values (ps : list Part) : list bytes :=
  omap (λ p, inline_data p ≫= blob_data) ps.

(** [None] for the empty value, as the two live accessors return it. *)
Definition nonempty_str (s : string) : option string :=
  if str_bool s then Some s else None.

Definition nonempty_bytes (b : bytes) : option bytes :=
  if decide (0 < length b) then Some b else None.

(** Two optional texts one after the other. *)
Definition opt_append (o1 o2 : option string) : option string :=
  match o1, o2 with
  | None, o => o
  | o, None => o
  | Some a, Some b => Some (a +:+ b)
  end.

(** The text of two runs of parts read one after the other: the first
    error wins. *)
Definition then_text (r1 r2 : Result (option string)) : Result (option string) :=
  match r1, r2 with
  | Raise e, _ => Raise e
  | Return _, Raise e => Raise e
  | Return o1, Return o2 => Return (opt_append o1 o2)
  end.

(** A live message whose model turn is made of the given parts. *)
Definition live_message_of_parts (ps : list Part) : LiveServerMessage :=
  {| setup_complete := None;
     server_content :=
       Some {| model_turn := Some {| parts := Some ps; role := Some "model" |};
               turn_complete := None; interrupted := None |};
     tool_call := None; tool_call_cancellation := None |}.

(** * Properties *)

(** ** Strings *)

Lemma string_app_cons (a : ascii) (s t : string) :
  String a s +:+ t = String a (s +:+ t).
Proof. reflexivity. Qed.

Lemma string_app_nil_r (s : string) : s +:+ "" = s.
Proof.
  induction s as [|a s IH]; [done|]. by rewrite string_app_cons, IH.
Qed.

Lemma string_app_assoc (s1 s2 s3 : string) :
  (s1 +:+ s2) +:+ s3 = s1 +:+ (s2 +:+ s3).
Proof.
  induction s1 as [|a s1 IH]; [done|]. by rewrite !string_app_cons, IH.
Qed.

Lemma prefix_app (s t : string) : String.prefix s (s +:+ t) = true.
Proof.
  induction s as [|a s IH]; [by destruct t|].
  rewrite string_app_cons. cbn.
  destruct (ascii_dec a a) as [_|Hne]; [exact IH | by destruct Hne].
Qed.

Lemma contains_prefix (needle haystack : string) :
  String.prefix needle haystack = true → contains needle haystack = true.
Proof. intros H. destruct haystack; cbn [contains]; by rewrite H. Qed.

Lemma contains_app (needle before after : string) :
  contains needle (before +:+ needle +:+ after) = true.
Proof.
  induction before as [|a before IH].
  - change (contains needle (needle +:+ after) = true).
    apply contains_prefix, prefix_app.
  - rewrite string_app_cons. cbn [contains]. rewrite IH. apply orb_true_r.
Qed.

(** ** Parts *)

Lemma Part_dict_exclude_text part :
  Part_dict part ["text"] = take 7 (Part_items part).
Proof. reflexivity. Qed.

Lemma check_no_other_field_clean part :
  non_text_count part = 0 →
  check_no_other_field (Part_dict part ["text"]) = Return ().
Proof.
  rewrite Part_dict_exclude_text. unfold non_text_count. intros Hcount.
  destruct part as [vm cer ec fd fc fr idata t]; cbn in *.
  destruct vm, cer, ec, fd, fc, fr, idata; cbn in Hcount; try lia.
  reflexivity.
Qed.

(** The inner loop stops at the first populated field. *)
Ltac raise_at_field o :=
  destruct o; [eexists; split; [|reflexivity]; set_solver|].

Lemma check_no_other_field_raises part :
  non_text_count part ≠ 0 →
  ∃ field_name, field_name ∈ non_text_fields ∧
    check_no_other_field (Part_dict part ["text"]) = Raise (text_only_error field_name).
Proof.
  rewrite Part_dict_exclude_text. unfold non_text_count, non_text_fields.
  intros Hcount.
  destruct part as [vm cer ec fd fc fr idata t]; cbn in *.
  raise_at_field vm. raise_at_field cer. raise_at_field ec.
  raise_at_field fd. raise_at_field fc. raise_at_field fr.
  raise_at_field idata. by destruct Hcount.
Qed.

(** The loop on parts none of which has another field: the accumulator
    grows by the text values, and the flag records whether there was one. *)
Lemma text_loop_clean ps acc any :
  Forall (λ p, non_text_count p = 0) ps →
  text_loop ps acc any =
    Return (if any || bool_decide (text_values ps ≠ [])
            then Some (acc +:+ join (text_values ps)) else None).
Proof.
  intros Hall. revert acc any.
  induction Hall as [|part ps Hpart _ IH]; intros acc any; cbn [text_loop].
  - rewrite orb_false_r. unfold join; cbn. by rewrite string_app_nil_r.
  - rewrite (check_no_other_field_clean _ Hpart).
    unfold text_values; cbn [omap list_omap]. destruct (text part) as [s|].
    + rewrite IH. rewrite orb_true_l, orb_true_r. cbn [join foldr].
      by rewrite string_app_assoc.
    + apply IH.
Qed.

Lemma text_loop_raises ps acc any :
  Exists has_non_text_field ps →
  ∃ field_name, field_name ∈ non_text_fields ∧
    text_loop ps acc any = Raise (text_only_error field_name).
Proof.
  intros Hex. revert acc any.
  induction ps as [|part ps IH]; intros acc any; [by inversion Hex|].
  cbn [text_loop]. destruct (decide (non_text_count part = 0)) as [Hzero|Hnz].
  - rewrite (check_no_other_field_clean _ Hzero).
    assert (Exists has_non_text_field ps) as Hrest.
    { inversion Hex as [? ? Hhere|]; [by destruct Hhere | done]. }
    destruct (text part); by apply IH.
  - destruct (check_no_other_field_raises _ Hnz) as (name & Hin & ->).
    by exists name.
Qed.

Lemma text_values_text_only ps :
  Forall is_text_only ps → length (text_values ps) = length ps.
Proof.
  induction 1 as [|part ps [_ [s Hs]] _ IH]; [done|].
  unfold text_values in *; cbn. rewrite Hs; cbn. by rewrite IH.
Qed.

(** The class-method constructors populate exactly one field; here the
    ones for text and for inline data. *)
Lemma Part_from_text_one s :
  ∃ p, Part_from_text s = Return p ∧ populated_count p = 1 ∧ is_text_only p.
Proof. eexists; split; [reflexivity|]. repeat split. by eexists. Qed.

Lemma Part_from_bytes_one data mime_type :
  ∃ p, Part_from_bytes data mime_type = Return p ∧ populated_count p = 1
       ∧ has_non_text_field p.
Proof. eexists; split; [reflexivity|]. by split. Qed.

(** C1, as the code has it: a part with the two variant fields [text] and
    [inline_data] populated is constructed and returned; nothing is
    raised. *)
Lemma Part_init_two_variants_accepted :
  (∃ p, text_and_inline_data = Return p ∧ populated_count p = 2)
  ∧ raises text_and_inline_data = false
  ∧ ¬ ∃ e, text_and_inline_data = Raise e.
Proof.
  split; [|split].
  - eexists. split; reflexivity.
  - reflexivity.
  - intros [e He]. discriminate He.
Qed.

(** C1, amended: constructing a [Part] never raises, whatever the number of
    populated variant fields -- exactly one, none, or two and more -- and
    the part returned holds every keyword argument as it was given. *)
Theorem Part_init_never_raises
    (vm : option VideoMetadata) (cer : option CodeExecutionResult)
    (ec : option ExecutableCode) (fd : option FileData)
    (fc : option FunctionCall) (fr : option FunctionResponse)
    (idata : option Blob) (t : option string) :
  ∃ p, Part_init vm cer ec fd fc fr idata t = Return p
    ∧ raises (Part_init vm cer ec fd fc fr idata t) = false
    ∧ video_metadata p = vm ∧ code_execution_result p = cer
    ∧ executable_code p = ec ∧ file_data p = fd
    ∧ function_call p = fc ∧ function_response p = fr
    ∧ inline_data p = idata ∧ text p = t
    ∧ populated_count p =
        is_set vm + is_set cer + is_set ec + is_set fd + is_set fc
        + is_set fr + is_set idata + is_set t.
Proof. eexists. repeat split. Qed.

(** ** The [text] accessor *)

Lemma text_of_parts self first others c ps :
  candidates self = Some (first :: others) →
  content first = Some c →
  parts c = Some ps →
  ps ≠ [] →
  GenerateContentResponse_text self = text_loop ps "" false.
Proof.
  intros Hcands Hcontent Hparts Hne.
  unfold GenerateContentResponse_text, GenerateContentResponse_text_logged.
  rewrite Hcands, Hcontent, Hparts. by destruct ps.
Qed.

(** C2: on a response whose first candidate has a non-empty parts list,
    the [text] property returns the in-order concatenation of the text
    values when every part has only its text field populated (and then
    every part contributes its value), and raises a [ValueError] as soon as
    some part has another field populated. *)
Theorem text_accessor_strict
    (self : GenerateContentResponse) (first : Candidate)
    (others : list Candidate) (c : Content) (ps : list Part) :
  candidates self = Some (first :: others) →
  content first = Some c →
  parts c = Some ps →
  ps ≠ [] →
  (Forall is_text_only ps →
     GenerateContentResponse_text self = Return (Some (join (text_values ps)))
     ∧ length (text_values ps) = length ps)
  ∧ (Exists has_non_text_field ps →
     ∃ e, GenerateContentResponse_text self = Raise e
          ∧ is_invalid_argument e = true).
Proof.
  intros Hcands Hcontent Hparts Hne.
  rewrite (text_of_parts _ _ _ _ _ Hcands Hcontent Hparts Hne).
  split.
  - intros Hall. pose proof (text_values_text_only _ Hall) as Hlen.
    split; [|exact Hlen].
    rewrite text_loop_clean by (eapply Forall_impl; [exact Hall | by intros ? []]).
    rewrite bool_decide_true; [done|].
    intros Hnil. rewrite Hnil in Hlen. by destruct ps.
  - intros Hex. destruct (text_loop_raises ps "" false Hex) as (name & _ & ->).
    by eexists.
Qed.

Lemma text_accessor_strict_witness :
  GenerateContentResponse_text
    (response_of_parts [text_part "Hello, "; text_part "world"])
  = Return (Some "Hello, world")
  ∧ ∃ e, GenerateContentResponse_text
           (response_of_parts [text_part "Hello"; inline_data_part [x00]%byte "image/png"])
         = Raise e ∧ is_invalid_argument e = true.
Proof.
  split.
  - refine (proj1 (proj1 (text_accessor_strict
              (response_of_parts [text_part "Hello, "; text_part "world"])
              _ _ _ _ eq_refl eq_refl eq_refl _) _)).
    + discriminate.
    + repeat constructor; by eexists.
  - refine (proj2 (text_accessor_strict
              (response_of_parts [text_part "Hello"; inline_data_part [x00]%byte "image/png"])
              _ _ _ _ eq_refl eq_refl eq_refl _) _).
    + discriminate.
    + apply Exists_cons_tl, Exists_cons_hd. discriminate.
Defined.

(** C10: without candidates, or when the first candidate has no content or
    an absent or empty parts list, the [text] property returns [None]; it
    does not raise (and logs nothing). *)
Theorem text_accessor_None (self : GenerateContentResponse) :
  candidates self = None
  ∨ candidates self = Some []
  ∨ (∃ first others, candidates self = Some (first :: others)
       ∧ (content first = None
          ∨ ∃ c, content first = Some c ∧ (parts c = None ∨ parts c = Some []))) →
  GenerateContentResponse_text self = Return None
  ∧ GenerateContentResponse_text_logged self = ([], Return None).
Proof.
  unfold GenerateContentResponse_text, GenerateContentResponse_text_logged.
  intros [-> | [-> | (first & others & -> & [-> | (c & -> & [-> | ->])])]];
    by split.
Qed.

Lemma text_accessor_None_witness :
  GenerateContentResponse_text (response_of_parts []) = Return None.
Proof.
  refine (proj1 (text_accessor_None (response_of_parts []) _)).
  right; right. do 2 eexists. split; [reflexivity|].
  right. eexists. split; [reflexivity|]. by right.
Defined.

(** ** Job states *)

Lemma py_in_app (value : option string) (l1 l2 : list string) :
  py_in value (l1 ++ l2) = py_in value l1 || py_in value l2.
Proof.
  destruct value as [s|]; [|done]. cbn.
  apply eq_true_iff_eq.
  rewrite orb_true_iff, !bool_decide_eq_true, elem_of_app. done.
Qed.

Lemma py_in_subseteq (value : option string) (l1 l2 : list string) :
  l1 ⊆ l2 → py_in value l1 = true → py_in value l2 = true.
Proof.
  intros Hsub. destruct value as [s|]; [|done]. cbn.
  rewrite !bool_decide_eq_true. apply Hsub.
Qed.

Lemma JOB_STATES_SUCCEEDED_ended : JOB_STATES_SUCCEEDED ⊆ JOB_STATES_ENDED.
Proof.
  intros s Hs. apply elem_of_app. apply elem_of_app in Hs as [Hs | Hs].
  - left. apply list_elem_of_singleton in Hs as ->. apply list_elem_of_here.
  - right. apply list_elem_of_singleton in Hs as ->. apply list_elem_of_here.
Qed.

(** C3, as the code has it: a job in state ["ACTIVE"] reports
    [has_ended] and [has_succeeded], although ["ACTIVE"] is in neither
    list of the hosted backend; the properties do not look at a backend. *)
Lemma has_ended_not_per_backend :
  has_ended (job_in_state "ACTIVE") = true
  ∧ has_ended_per_backend Hosted (job_in_state "ACTIVE") = false
  ∧ has_succeeded (job_in_state "ACTIVE") = true
  ∧ has_succeeded_per_backend Hosted (job_in_state "ACTIVE") = false.
Proof. by vm_compute. Qed.

(** C3, amended: [has_ended] and [has_succeeded] test the state against
    the concatenation of the hosted and the direct list, one vocabulary
    for both backends: each holds exactly when it would hold for one of
    the two backends.  So a job in state ["JOB_STATE_SUCCEEDED"] and one in
    state ["ACTIVE"] report both, and one in state ["JOB_STATE_RUNNING"]
    reports [has_ended] false. *)
Theorem has_ended_shared_vocabulary (job : TuningJob) :
  has_ended job
    = has_ended_per_backend Hosted job || has_ended_per_backend Direct job
  ∧ has_succeeded job
    = has_succeeded_per_backend Hosted job || has_succeeded_per_backend Direct job
  ∧ has_ended (with_state job (Some "JOB_STATE_SUCCEEDED")) = true
  ∧ has_succeeded (with_state job (Some "JOB_STATE_SUCCEEDED")) = true
  ∧ has_ended (with_state job (Some "ACTIVE")) = true
  ∧ has_succeeded (with_state job (Some "ACTIVE")) = true
  ∧ has_ended (with_state job (Some "JOB_STATE_RUNNING")) = false.
Proof.
  repeat split; try apply py_in_app; by vm_compute.
Qed.

(** C4: the four literal lists, each without repetition. *)
Theorem job_state_literal_sets :
  states_succeeded_of Hosted = ["JOB_STATE_SUCCEEDED"]
  ∧ states_succeeded_of Direct = ["ACTIVE"]
  ∧ states_ended_of Hosted
      = ["JOB_STATE_SUCCEEDED"; "JOB_STATE_FAILED"; "JOB_STATE_CANCELLED";
         "JOB_STATE_EXPIRED"]
  ∧ states_ended_of Direct = ["ACTIVE"; "FAILED"]
  ∧ NoDup (states_ended_of Hosted) ∧ NoDup (states_ended_of Direct).
Proof.
  repeat split; apply (bool_decide_unpack _); by vm_compute.
Qed.

(** C9: a job that has succeeded has ended. *)
Theorem has_succeeded_has_ended (job : TuningJob) :
  has_succeeded job = true → has_ended job = true.
Proof. apply py_in_subseteq, JOB_STATES_SUCCEEDED_ended. Qed.

Lemma has_succeeded_has_ended_witness :
  has_succeeded (job_in_state "ACTIVE") = true
  ∧ has_ended (job_in_state "ACTIVE") = true.
Proof.
  assert (has_succeeded (job_in_state "ACTIVE") = true) as H by (by vm_compute).
  split; [exact H|]. exact (has_succeeded_has_ended _ H).
Defined.

(** ** Reference images *)

(** C8: each constructor stamps its own [reference_type], whatever the
    arguments, and stores the config it is given in the field of its
    variant; the [config] field itself stays unset. *)
Theorem reference_image_discriminator
    (reference_image : option Image) (reference_id : option Z) :
  (let r := RawReferenceImage_init reference_image reference_id in
   raw_reference_type r = Some "REFERENCE_TYPE_RAW"
   ∧ raw_reference_image r = reference_image
   ∧ raw_reference_id r = reference_id)
  ∧ (∀ config,
       let r := MaskReferenceImage_init reference_image reference_id config in
       mask_reference_type r = Some "REFERENCE_TYPE_MASK"
       ∧ mask_image_config r = config ∧ mask_config r = None
       ∧ mask_reference_image r = reference_image
       ∧ mask_reference_id r = reference_id)
  ∧ (∀ config,
       let r := ControlReferenceImage_init reference_image reference_id config in
       control_reference_type r = Some "REFERENCE_TYPE_CONTROL"
       ∧ control_image_config r = config ∧ control_config r = None
       ∧ control_reference_image r = reference_image
       ∧ control_reference_id r = reference_id)
  ∧ (∀ config,
       let r := StyleReferenceImage_init reference_image reference_id config in
       style_reference_type r = Some "REFERENCE_TYPE_STYLE"
       ∧ style_image_config r = config ∧ style_config r = None
       ∧ style_reference_image r = reference_image
       ∧ style_reference_id r = reference_id)
  ∧ (∀ config,
       let r := SubjectReferenceImage_init reference_image reference_id config in
       subject_reference_type r = Some "REFERENCE_TYPE_SUBJECT"
       ∧ subject_image_config r = config ∧ subject_config r = None
       ∧ subject_reference_image r = reference_image
       ∧ subject_reference_id r = reference_id).
Proof. repeat split. Qed.

(** ** Batch jobs *)

Lemma resolve_direct (c : Client) (raw_name : string) :
  backend c = Direct →
  Batches.resolve c raw_name
    = Failed UnsupportedOnBackend Batches.unsupported_message.
Proof. intros Hb. unfold Batches.resolve. by rewrite Hb. Qed.

Lemma resolve_hosted_rejects (c : Client) (raw_name : string) :
  backend c = Hosted →
  Batches.is_full_path raw_name = false →
  Batches.is_bare_id raw_name = false →
  Batches.resolve c raw_name
    = Failed InvalidArgument (Batches.invalid_name_message raw_name).
Proof. intros Hb Hpath Hid. unfold Batches.resolve. by rewrite Hb, Hpath, Hid. Qed.

Lemma invalid_name_message_names (raw_name : string) :
  contains raw_name (Batches.invalid_name_message raw_name) = true.
Proof. apply contains_app. Qed.

Lemma call_failed (op : Batches.Operation) (c : Client)
    (send : Batches.Transport) (name : string) kind message :
  Batches.resolve c name = Failed kind message →
  Batches.call op c send name = ([], Failed kind message).
Proof. intros H. unfold Batches.call. by rewrite H. Qed.

(** The resolution table of the specification. *)
Example resolve_bare_id (p l : string) :
  Batches.resolve {| backend := Hosted; project := p; location := l |}
                  "2803006536245313536"
  = Done ("projects/" +:+ p +:+ "/locations/" +:+ l
          +:+ "/batchPredictionJobs/2803006536245313536").
Proof. reflexivity. Qed.

Example resolve_full_path (p l : string) :
  Batches.resolve {| backend := Hosted; project := p; location := l |}
                  test_cancel._BATCH_JOB_FULL_RESOURCE_NAME
  = Done test_cancel._BATCH_JOB_FULL_RESOURCE_NAME.
Proof. reflexivity. Qed.

(** The rows of both test tables hold of the model on both backends, with
    any transport. *)
Lemma test_tables_pass (b : Backend) (p l : string) (send : Batches.Transport) :
  let c := {| backend := b; project := p; location := l |} in
  forallb (Batches.row_passes Batches.Cancel c send) test_cancel.test_table = true
  ∧ forallb (Batches.row_passes Batches.Delete c send) test_delete.test_table = true.
Proof. destruct b; split; reflexivity. Qed.

(** C6: on the direct backend, cancel and delete of a batch job fail with
    [UnsupportedOnBackend] for every name, and send nothing. *)
Theorem batch_jobs_hosted_only
    (c : Client) (send : Batches.Transport) (name : string) :
  backend c = Direct →
  Batches.cancel c send name
    = ([], Failed UnsupportedOnBackend Batches.unsupported_message)
  ∧ Batches.delete c send name
    = ([], Failed UnsupportedOnBackend Batches.unsupported_message).
Proof.
  intros Hb. split; apply call_failed, resolve_direct, Hb.
Qed.

Lemma batch_jobs_hosted_only_witness :
  Batches.cancel direct_client echo_transport test_cancel._BATCH_JOB_FULL_RESOURCE_NAME
    = ([], Failed UnsupportedOnBackend Batches.unsupported_message)
  ∧ Batches.delete direct_client echo_transport test_cancel._BATCH_JOB_FULL_RESOURCE_NAME
    = ([], Failed UnsupportedOnBackend Batches.unsupported_message).
Proof.
  exact (batch_jobs_hosted_only direct_client echo_transport
           test_cancel._BATCH_JOB_FULL_RESOURCE_NAME eq_refl).
Defined.

(** C7: on the hosted backend, cancel and delete of the batch job named
    ["invalid_name"] fail with [InvalidArgument]; the message contains the
    name, and nothing has been sent. *)
Theorem invalid_name_rejected (c : Client) (send : Batches.Transport) :
  backend c = Hosted →
  ∃ message,
    Batches.cancel c send _INVALID_BATCH_JOB_NAME = ([], Failed InvalidArgument message)
    ∧ Batches.delete c send _INVALID_BATCH_JOB_NAME = ([], Failed InvalidArgument message)
    ∧ contains _INVALID_BATCH_JOB_NAME message = true
    ∧ Batches.is_bare_id _INVALID_BATCH_JOB_NAME = false
    ∧ Batches.is_full_path _INVALID_BATCH_JOB_NAME = false.
Proof.
  intros Hb. exists (Batches.invalid_name_message _INVALID_BATCH_JOB_NAME).
  assert (Batches.resolve c _INVALID_BATCH_JOB_NAME
          = Failed InvalidArgument (Batches.invalid_name_message _INVALID_BATCH_JOB_NAME))
    as Hres by (by apply resolve_hosted_rejects).
  split; [by apply call_failed|]. split; [by apply call_failed|].
  split; [apply invalid_name_message_names|]. by split.
Qed.

Lemma invalid_name_rejected_witness :
  ∃ message,
    Batches.cancel hosted_client echo_transport "invalid_name"
      = ([], Failed InvalidArgument message)
    ∧ contains "invalid_name" message = true.
Proof.
  destruct (invalid_name_rejected hosted_client echo_transport eq_refl)
    as (message & Hcancel & _ & Hnames & _).
  exists message. by split.
Defined.

(** ** Cache creation *)

(** C5: when both [ttl] and [expire_time] are supplied, the body carries
    the value of [expire_time] and no [ttl] field, one diagnostic is
    recorded, and nothing is raised. *)
Theorem expire_time_wins
    (now : Z) (config : CreateCachedContentConfig) (t : string) (e : Z) :
  ttl config = Some t →
  expire_time config = Some e →
  ∃ body,
    Caches.config_to_wire now config
      = ([Caches.TtlIgnoredInFavourOfExpireTime t e], Done body)
    ∧ body !! "expire_time" = Some (Caches.WireTimestamp e)
    ∧ body !! "ttl" = None.
Proof.
  intros Httl Hexp. unfold Caches.config_to_wire, Caches.resolve_expiry.
  rewrite Httl, Hexp. eexists. split; [reflexivity|].
  cbn. split.
  - apply lookup_insert_eq.
  - rewrite lookup_insert_ne by done.
    unfold Caches.set_field. destruct (display_name config); cbn.
    + by rewrite lookup_insert_ne.
    + apply lookup_empty.
Qed.

Lemma expire_time_wins_witness :
  ∃ body,
    Caches.config_to_wire 1734000000 config_with_both
      = ([Caches.TtlIgnoredInFavourOfExpireTime "86400s" 1734652800], Done body)
    ∧ body !! "expire_time" = Some (Caches.WireTimestamp 1734652800)
    ∧ body !! "ttl" = None.
Proof.
  exact (expire_time_wins 1734000000 config_with_both "86400s" 1734652800
           eq_refl eq_refl).
Defined.

(** The end-to-end scenario of the specification: a [ttl] alone becomes
    the absolute expiry [now + ttl], and the body has no [ttl] field. *)
Example ttl_alone (now : Z) :
  ∃ body,
    Caches.config_to_wire now
      {| http_options := None; ttl := Some "86400s"; expire_time := None;
         display_name := Some "test cache" |}
      = ([], Done body)
    ∧ body !! "expire_time" = Some (Caches.WireTimestamp (now + 86400))
    ∧ body !! "ttl" = None.
Proof.
  eexists. split; [reflexivity|]. cbn. split.
  - apply lookup_insert_eq.
  - rewrite !lookup_insert_ne by done. apply lookup_empty.
Qed.

(** * Further properties *)

(** ** What the field loops see *)

Lemma check_no_other_field_check_fields items :
  check_no_other_field items = check_fields text_only_error items.
Proof.
  induction items as [|[name value] items IH]; [done|].
  cbn. by rewrite IH.
Qed.


Lemma Part_items_populated (p : Part) :
  (filter (λ item, is_not_None item.2 = true) (Part_items p)).*1
  = populated_fields p.
Proof.
  destruct p as [[?|] [?|] [?|] [?|] [?|] [?|] [?|] [?|]]; reflexivity.
Qed.

Lemma check_fields_filter error (exclude : list string)
    (items : list (string * PyValue)) :
  check_fields error (filter (λ item, item.1 ∉ exclude) items)
  = match head (filter (λ name, name ∉ exclude)
                  (filter (λ item, is_not_None item.2 = true) items).*1) with
    | Some name => Raise (error name)
    | None => Return ()
    end.
Proof.
  induction items as [|[name value] items IH]; [done|].
  rewrite (filter_cons (λ item, item.1 ∉ exclude)).
  rewrite (filter_cons (λ item, is_not_None item.2 = true)).
  cbn [fst snd].
  destruct (decide (name ∉ exclude)) as [Hin|Hout];
    destruct (decide (is_not_None value = true)) as [Hset|Hnone].
  - cbn [check_fields fmap list_fmap fst]. rewrite Hset.
    rewrite filter_cons, decide_True by done. reflexivity.
  - cbn [check_fields]. apply not_true_is_false in Hnone. rewrite Hnone.
    exact IH.
  - cbn [fmap list_fmap fst]. rewrite filter_cons, decide_False by done.
    exact IH.
  - exact IH.
Qed.

(** The inner loop raises at the first populated field that is not
    excluded, in declaration order. *)
Lemma check_fields_Part_dict error (exclude : list string) (p : Part) :
  check_fields error (Part_dict p exclude)
  = match head (other_fields exclude p) with
    | Some name => Raise (error name)
    | None => Return ()
    end.
Proof.
  unfold Part_dict, other_fields.
  rewrite check_fields_filter, Part_items_populated. reflexivity.
Qed.

Lemma join_app (l1 l2 : list string) : join (l1 ++ l2) = join l1 +:+ join l2.
Proof.
  induction l1 as [|s l1 IH]; [done|].
  cbn [join foldr app]. fold (join (l1 ++ l2)). fold (join l1).
  by rewrite IH, string_app_assoc.
Qed.

(** The loop of the [text] property in closed form. *)
Lemma text_loop_closed ps acc any :
  text_loop ps acc any
  = match first_offending ["text"] ps with
    | Some name => Raise (text_only_error name)
    | None =>
        Return (if any || bool_decide (text_values ps ≠ [])
                then Some (acc +:+ join (text_values ps)) else None)
    end.
Proof.
  revert acc any. induction ps as [|p ps IH]; intros acc any.
  - cbn. rewrite orb_false_r. unfold join; cbn. by rewrite string_app_nil_r.
  - cbn [text_loop first_offending].
    rewrite check_no_other_field_check_fields, check_fields_Part_dict.
    destruct (head (other_fields ["text"] p)) as [name|]; [done|].
    unfold text_values; cbn [omap list_omap]. destruct (text p) as [s|].
    + rewrite IH. destruct (first_offending ["text"] ps); [done|].
      rewrite orb_true_l, orb_true_r. cbn [join foldr].
      by rewrite string_app_assoc.
    + apply IH.
Qed.

Lemma live_text_loop_closed ps acc :
  live_text_loop ps acc
  = match first_offending ["text"] ps with
    | Some name => Raise (live_text_error name)
    | None => Return (acc +:+ join (text_values ps))
    end.
Proof.
  revert acc. induction ps as [|p ps IH]; intros acc.
  - cbn. unfold join; cbn. by rewrite string_app_nil_r.
  - cbn [live_text_loop first_offending]. rewrite check_fields_Part_dict.
    destruct (head (other_fields ["text"] p)) as [name|]; [done|].
    unfold text_values; cbn [omap list_omap]. destruct (text p) as [s|].
    + rewrite IH. destruct (first_offending ["text"] ps); [done|].
      cbn [join foldr]. by rewrite string_app_assoc.
    + apply IH.
Qed.

Lemma live_data_loop_closed ps acc :
  live_data_loop ps acc
  = match first_offending ["inline_data"] ps with
    | Some name => Raise (live_data_error name)
    | None => Return (acc ++ concat (data_values ps))%list
    end.
Proof.
  revert acc. induction ps as [|p ps IH]; intros acc.
  - cbn. by rewrite app_nil_r.
  - cbn [live_data_loop first_offending]. rewrite check_fields_Part_dict.
    destruct (head (other_fields ["inline_data"] p)) as [name|]; [done|].
    unfold data_values; cbn [omap list_omap].
    destruct (inline_data p) as [blob|]; cbn [mbind option_bind];
      [destruct (blob_data blob) as [data|]|].
    + rewrite IH. destruct (first_offending ["inline_data"] ps); [done|].
      cbn [concat]. by rewrite app_assoc.
    + apply IH.
    + apply IH.
Qed.

Lemma text_by_parts (self : GenerateContentResponse) :
  GenerateContentResponse_text self
  = text_loop (first_candidate_parts self) "" false.
Proof.
  unfold GenerateContentResponse_text, GenerateContentResponse_text_logged,
    first_candidate_parts.
  destruct (candidates self) as [[|first others]|]; [done| |done].
  destruct (content first) as [c|]; [|done].
  by destruct (parts c) as [[|p ps]|].
Qed.

Lemma live_text_by_parts (self : LiveServerMessage) :
  LiveServerMessage_text self
  = match live_text_loop (model_turn_parts self) "" with
    | Raise e => Raise e
    | Return text => Return (nonempty_str text)
    end.
Proof.
  unfold LiveServerMessage_text, model_turn_parts.
  destruct (server_content self) as [sc|]; [|done].
  destruct (model_turn sc) as [turn|]; [|done].
  by destruct (parts turn) as [[|p ps]|].
Qed.

Lemma live_data_by_parts (self : LiveServerMessage) :
  LiveServerMessage_data self
  = match live_data_loop (model_turn_parts self) [] with
    | Raise e => Raise e
    | Return data => Return (nonempty_bytes data)
    end.
Proof.
  unfold LiveServerMessage_data, model_turn_parts.
  destruct (server_content self) as [sc|]; [|done].
  destruct (model_turn sc) as [turn|]; [|done].
  by destruct (parts turn) as [[|p ps]|].
Qed.

Lemma string_app_nil_l (s : string) : "" +:+ s = s.
Proof. reflexivity. Qed.

Lemma head_None_nil {A} (l : list A) : head l = None ↔ l = [].
Proof. by destruct l. Qed.

Lemma other_fields_text_nil (p : Part) :
  other_fields ["text"] p = [] ↔ non_text_count p = 0.
Proof.
  destruct p as [[?|] [?|] [?|] [?|] [?|] [?|] [?|] [?|]];
    vm_compute; split; intros H; done.
Qed.

Lemma first_offending_None (exclude : list string) (ps : list Part) :
  first_offending exclude ps = None
  ↔ Forall (λ p, other_fields exclude p = []) ps.
Proof.
  induction ps as [|p ps IH]; cbn [first_offending].
  - split; [constructor | done].
  - rewrite Forall_cons, <- IH.
    destruct (other_fields exclude p) as [|name l]; cbn [head].
    + split; [by split | by intros [_ ?]].
    + split; [done | by intros [? _]].
Qed.

Lemma first_offending_text_None (ps : list Part) :
  first_offending ["text"] ps = None
  ↔ Forall (λ p, non_text_count p = 0) ps.
Proof.
  rewrite first_offending_None. apply Forall_proper; [|done].
  intros p. apply other_fields_text_nil.
Qed.

Lemma text_values_nil (ps : list Part) :
  text_values ps = [] ↔ Forall (λ p, text p = None) ps.
Proof.
  unfold text_values. induction ps as [|p ps IH]; cbn [omap list_omap].
  - split; [constructor | done].
  - rewrite Forall_cons, <- IH. destruct (text p).
    + split; [done | by intros [? _]].
    + split; [by split | by intros [_ ?]].
Qed.

Lemma populated_count_zero (p : Part) :
  populated_count p = 0 ↔ non_text_count p = 0 ∧ text p = None.
Proof.
  unfold populated_count. fold (non_text_count p).
  destruct (text p); cbn [is_set].
  - split; [lia | by intros [_ ?]].
  - split; [intros ?; split; [lia | done] | intros [? _]; lia].
Qed.

(** X1: the [text] property of a response in closed form.  It raises
    exactly when some part of the first candidate has a populated field
    other than [text], and the error then names the first such field, in
    declaration order, of the first such part; otherwise it returns the
    concatenation of the text values, or [None] when no part has one. *)
Theorem text_closed_form (self : GenerateContentResponse) :
  GenerateContentResponse_text self
  = match first_offending ["text"] (first_candidate_parts self) with
    | Some name => Raise (text_only_error name)
    | None =>
        Return (if bool_decide (text_values (first_candidate_parts self) ≠ [])
                then Some (join (text_values (first_candidate_parts self)))
                else None)
    end.
Proof. rewrite text_by_parts, text_loop_closed. reflexivity. Qed.

(** X2: the [text] property raises only on a populated field other than
    [text]: it raises if and only if some part of the first candidate has
    such a field. *)
Theorem text_raises_iff (self : GenerateContentResponse) :
  (∃ e, GenerateContentResponse_text self = Raise e)
  ↔ Exists has_non_text_field (first_candidate_parts self).
Proof.
  rewrite text_closed_form.
  pose proof (first_offending_text_None (first_candidate_parts self)) as Hnone.
  destruct (first_offending ["text"] (first_candidate_parts self)) as [name|].
  - split; [intros _ | by eexists].
    apply not_Forall_Exists; [intros p; apply _|].
    intros Hall. apply Hnone in Hall. discriminate Hall.
  - split; [by intros [e He]|].
    intros Hex. apply Exists_not_Forall in Hex. destruct Hex.
    by apply Hnone.
Qed.

(** X3: the [text] property returns [None] exactly when no part of the
    first candidate has any field populated (in particular when there is
    no part to read); a part whose text is the empty string already makes
    it return a string. *)
Theorem text_None_iff (self : GenerateContentResponse) :
  GenerateContentResponse_text self = Return None
  ↔ Forall (λ p, populated_count p = 0) (first_candidate_parts self).
Proof.
  rewrite text_closed_form.
  pose proof (first_offending_text_None (first_candidate_parts self)) as Hnone.
  pose proof (text_values_nil (first_candidate_parts self)) as Hnil.
  assert (Forall (λ p, populated_count p = 0) (first_candidate_parts self)
          ↔ Forall (λ p, non_text_count p = 0) (first_candidate_parts self)
            ∧ Forall (λ p, text p = None) (first_candidate_parts self)) as ->.
  { rewrite <- Forall_and. apply Forall_proper; [|done].
    intros p. apply populated_count_zero. }
  rewrite <- Hnone, <- Hnil.
  destruct (first_offending ["text"] (first_candidate_parts self)) as [name|].
  - split; [done | by intros [? _]].
  - case_bool_decide as Htv.
    + split; [done | by intros [_ ?]].
    + split; [intros _; split; [done|] | done].
      by destruct (decide (text_values (first_candidate_parts self) = [])).
Qed.

Lemma first_offending_app (exclude : list string) (ps1 ps2 : list Part) :
  first_offending exclude (ps1 ++ ps2)
  = match first_offending exclude ps1 with
    | Some name => Some name
    | None => first_offending exclude ps2
    end.
Proof.
  induction ps1 as [|p ps1 IH]; [done|].
  cbn [app first_offending]. by destruct (head (other_fields exclude p)).
Qed.

Lemma text_values_app (ps1 ps2 : list Part) :
  text_values (ps1 ++ ps2) = (text_values ps1 ++ text_values ps2)%list.
Proof. apply omap_app. Qed.

(** X4: reading two runs of parts one after the other.  When the parts of
    a response are those of a first response followed by those of a
    second, its text is the two texts one after the other ([None] counting
    as no text), and an error of the first, else of the second, is the
    error of the whole. *)
Theorem text_app (self first second : GenerateContentResponse) :
  first_candidate_parts self
    = (first_candidate_parts first ++ first_candidate_parts second)%list →
  GenerateContentResponse_text self
  = then_text (GenerateContentResponse_text first)
              (GenerateContentResponse_text second).
Proof.
  intros Hparts. rewrite !text_closed_form, Hparts.
  rewrite first_offending_app, text_values_app.
  destruct (first_offending ["text"] (first_candidate_parts first)); [done|].
  destruct (first_offending ["text"] (first_candidate_parts second)); [done|].
  cbn [then_text]. f_equal.
  destruct (text_values (first_candidate_parts first)) as [|s1 l1];
    destruct (text_values (first_candidate_parts second)) as [|s2 l2];
    try done.
  - cbn [app]. rewrite app_nil_r. reflexivity.
  - rewrite bool_decide_true by done. rewrite !bool_decide_true by done.
    cbn [opt_append]. by rewrite join_app.
Qed.

Lemma text_app_witness :
  GenerateContentResponse_text
    (response_of_parts [text_part "Hello, "; text_part "world"])
  = then_text
      (GenerateContentResponse_text (response_of_parts [text_part "Hello, "]))
      (GenerateContentResponse_text (response_of_parts [text_part "world"])).
Proof.
  exact (text_app (response_of_parts [text_part "Hello, "; text_part "world"])
           (response_of_parts [text_part "Hello, "])
           (response_of_parts [text_part "world"]) eq_refl).
Defined.

(** X5: the warning about further candidates is logged exactly when the
    response has more than one candidate and the first one has parts to
    read -- whether the property then returns or raises -- and it gives
    the number of candidates. *)
Theorem text_warning (self : GenerateContentResponse) :
  (GenerateContentResponse_text_logged self).1
  = if decide (1 < length (default [] (candidates self))
               ∧ first_candidate_parts self ≠ [])
    then [many_candidates_warning (length (default [] (candidates self)))]
    else [].
Proof.
  unfold GenerateContentResponse_text_logged, first_candidate_parts.
  destruct (candidates self) as [[|first others]|]; cbn [default fst].
  - by rewrite decide_False by (intros [? _]; cbn in *; lia).
  - destruct (content first) as [c|]; cbn [fst].
    + destruct (parts c) as [[|p ps]|]; cbn [default fst].
      * by rewrite decide_False by (by intros [_ ?]).
      * destruct (decide (1 < length (first :: others))) as [Hn|Hn].
        -- by rewrite decide_True by done.
        -- by rewrite decide_False by (by intros [? _]).
      * by rewrite decide_False by (by intros [_ ?]).
    + by rewrite decide_False by (by intros [_ ?]).
  - by rewrite decide_False by (intros [? _]; cbn in *; lia).
Qed.

(** ** The accessors of the live server message *)

(** X6: on the same parts, the [text] of a live message and the [text] of
    a response agree, but for two things: where the response returns the
    empty string the live message returns [None], and an error names the
    same field under the live message's own wording. *)
Theorem live_text_agrees (self : GenerateContentResponse) (msg : LiveServerMessage) :
  first_candidate_parts self = model_turn_parts msg →
  match GenerateContentResponse_text self with
  | Return o => LiveServerMessage_text msg = Return (o ≫= nonempty_str)
  | Raise _ =>
      ∃ name, GenerateContentResponse_text self = Raise (text_only_error name)
              ∧ LiveServerMessage_text msg = Raise (live_text_error name)
  end.
Proof.
  intros Hparts.
  rewrite text_closed_form, live_text_by_parts, live_text_loop_closed, Hparts.
  destruct (first_offending ["text"] (model_turn_parts msg)) as [name|].
  - by exists name.
  - rewrite string_app_nil_l. case_bool_decide as Htv; [done|].
    by rewrite Htv.
Qed.

Lemma live_text_agrees_witness :
  GenerateContentResponse_text (response_of_parts [text_part ""]) = Return (Some "")
  ∧ LiveServerMessage_text (live_message_of_parts [text_part ""]) = Return None.
Proof.
  pose proof (live_text_agrees (response_of_parts [text_part ""])
                (live_message_of_parts [text_part ""]) eq_refl) as H.
  split; [reflexivity | exact H].
Defined.

Lemma other_fields_inline_data_of_text_only (p : Part) :
  non_text_count p = 0 →
  other_fields ["inline_data"] p = name_if_set "text" (text p).
Proof.
  destruct p as [[?|] [?|] [?|] [?|] [?|] [?|] [?|] [?|]];
    vm_compute; intros H; done.
Qed.

Lemma other_fields_text_of_data_only (p : Part) :
  other_fields ["inline_data"] p = [] →
  other_fields ["text"] p = name_if_set "inline_data" (inline_data p).
Proof.
  destruct p as [[?|] [?|] [?|] [?|] [?|] [?|] [?|] [?|]];
    vm_compute; intros H; done.
Qed.

Lemma first_offending_data_of_texts (ps : list Part) :
  Forall (λ p, non_text_count p = 0) ps →
  text_values ps ≠ [] →
  first_offending ["inline_data"] ps = Some "text".
Proof.
  unfold text_values.
  induction 1 as [|p ps Hp _ IH]; intros Htv; [done|].
  cbn [first_offending]. rewrite (other_fields_inline_data_of_text_only _ Hp).
  cbn [omap list_omap] in Htv. destruct (text p); [done|]. by apply IH.
Qed.

Lemma first_offending_text_of_datas (ps : list Part) :
  Forall (λ p, other_fields ["inline_data"] p = []) ps →
  data_values ps ≠ [] →
  first_offending ["text"] ps = Some "inline_data".
Proof.
  unfold data_values.
  induction 1 as [|p ps Hp _ IH]; intros Hdv; [done|].
  cbn [first_offending]. rewrite (other_fields_text_of_data_only _ Hp).
  cbn [omap list_omap] in Hdv. destruct (inline_data p); [done|]. by apply IH.
Qed.

(** X7: the [data] of a live message in closed form.  It raises exactly
    when some part of the model turn has a populated field other than
    [inline_data] -- a text included -- naming the first such field;
    otherwise it returns the inline bytes of the parts in order, or [None]
    when there are none. *)
Theorem live_data_closed_form (msg : LiveServerMessage) :
  LiveServerMessage_data msg
  = match first_offending ["inline_data"] (model_turn_parts msg) with
    | Some name => Raise (live_data_error name)
    | None => Return (nonempty_bytes (concat (data_values (model_turn_parts msg))))
    end.
Proof.
  rewrite live_data_by_parts, live_data_loop_closed.
  by destruct (first_offending ["inline_data"] (model_turn_parts msg)).
Qed.

(** X8: a live message that has a text has no data: when [text] returns a
    string, [data] raises, and the error names the field [text]. *)
Theorem live_text_excludes_data (msg : LiveServerMessage) (s : string) :
  LiveServerMessage_text msg = Return (Some s) →
  LiveServerMessage_data msg = Raise (live_data_error "text").
Proof.
  rewrite live_text_by_parts, live_text_loop_closed, live_data_closed_form.
  pose proof (first_offending_text_None (model_turn_parts msg)) as Hnone.
  destruct (first_offending ["text"] (model_turn_parts msg)); [done|].
  intros Htext. rewrite first_offending_data_of_texts; [done | by apply Hnone |].
  intros Hnil. rewrite Hnil in Htext. discriminate Htext.
Qed.

Lemma live_text_excludes_data_witness :
  LiveServerMessage_data (live_message_of_parts [text_part "Hello"])
  = Raise (live_data_error "text").
Proof.
  exact (live_text_excludes_data (live_message_of_parts [text_part "Hello"])
           "Hello" eq_refl).
Defined.

(** X9: a live message that has data has no text: when [data] returns
    bytes, [text] raises, and the error names the field [inline_data]. *)
Theorem live_data_excludes_text (msg : LiveServerMessage) (d : bytes) :
  LiveServerMessage_data msg = Return (Some d) →
  LiveServerMessage_text msg = Raise (live_text_error "inline_data").
Proof.
  rewrite live_data_closed_form, live_text_by_parts, live_text_loop_closed.
  pose proof (first_offending_None ["inline_data"] (model_turn_parts msg)) as Hnone.
  destruct (first_offending ["inline_data"] (model_turn_parts msg)); [done|].
  intros Hdata. rewrite first_offending_text_of_datas; [done | by apply Hnone |].
  intros Hnil. rewrite Hnil in Hdata. discriminate Hdata.
Qed.

Lemma live_data_excludes_text_witness :
  LiveServerMessage_text
    (live_message_of_parts [inline_data_part [x01; x02]%byte "audio/pcm"])
  = Raise (live_text_error "inline_data").
Proof.
  exact (live_data_excludes_text
           (live_message_of_parts [inline_data_part [x01; x02]%byte "audio/pcm"])
           [x01; x02]%byte eq_refl).
Defined.

(** ** Job states, again *)

Lemma py_in_true (value : option string) (states : list string) :
  py_in value states = true ↔ ∃ s, value = Some s ∧ s ∈ states.
Proof.
  destruct value as [s|]; cbn.
  - rewrite bool_decide_eq_true. split; [by exists s | by intros (? & [= ->] & ?)].
  - split; [done | by intros (? & ? & _)].
Qed.

(** X10: on the states of the [JobState] literal, the vocabulary of the
    hosted backend, the shared lists decide as the hosted lists alone
    would: the literals of the direct backend are not among them. *)
Theorem JobState_decided_by_hosted_lists (job : TuningJob) (s : string) :
  s ∈ JobState →
  has_ended (with_state job (Some s))
    = has_ended_per_backend Hosted (with_state job (Some s))
  ∧ has_succeeded (with_state job (Some s))
    = has_succeeded_per_backend Hosted (with_state job (Some s)).
Proof.
  unfold JobState. intros Hs.
  repeat (apply elem_of_cons in Hs as [-> | Hs]; [by vm_compute|]).
  by apply elem_of_nil in Hs.
Qed.

Lemma JobState_decided_by_hosted_lists_witness :
  has_ended (job_in_state "JOB_STATE_CANCELLED") = true
  ∧ has_succeeded (job_in_state "JOB_STATE_CANCELLED") = false.
Proof.
  assert ("JOB_STATE_CANCELLED" ∈ JobState) as Hin
    by (apply (bool_decide_unpack _); by vm_compute).
  destruct (JobState_decided_by_hosted_lists
              (job_in_state "JOB_STATE_CANCELLED") "JOB_STATE_CANCELLED" Hin)
    as [Hended Hsucceeded].
  split; [exact Hended | exact Hsucceeded].
Defined.

(** X11: a job has ended without having succeeded exactly in the states
    ["JOB_STATE_FAILED"], ["JOB_STATE_CANCELLED"], ["JOB_STATE_EXPIRED"]
    and ["FAILED"]; a job without a state has neither ended nor
    succeeded. *)
Theorem ended_without_success (job : TuningJob) :
  (has_ended job = true ∧ has_succeeded job = false
   ↔ ∃ s, state job = Some s
          ∧ s ∈ ["JOB_STATE_FAILED"; "JOB_STATE_CANCELLED";
                 "JOB_STATE_EXPIRED"; "FAILED"])
  ∧ (state job = None → has_ended job = false ∧ has_succeeded job = false).
Proof.
  unfold has_ended, has_succeeded. split.
  - destruct (state job) as [s|]; cbn [py_in].
    + rewrite bool_decide_eq_true, bool_decide_eq_false. split.
      * intros [Hended Hnot]. exists s. split; [done|].
        unfold JOB_STATES_ENDED, JOB_STATES_ENDED_VERTEX, JOB_STATES_ENDED_MLDEV in Hended.
        cbn [app] in Hended.
        repeat (apply elem_of_cons in Hended as [-> | Hended];
                [first [ by (exfalso; apply Hnot; apply (bool_decide_unpack _); vm_compute)
                       | apply (bool_decide_unpack _); by vm_compute ]|]).
        by apply elem_of_nil in Hended.
      * intros (s' & [= <-] & Hs).
        repeat (apply elem_of_cons in Hs as [-> | Hs];
                [split; [apply (bool_decide_unpack _); by vm_compute
                        | apply (bool_decide_eq_false_1 _); by vm_compute]|]).
        by apply elem_of_nil in Hs.
    + split; [by intros [? _] | by intros (? & ? & _)].
  - by intros ->.
Qed.

(** ** Constructors and dumps of a part *)



(** ** Reference images, again *)

(** X14: the five constructors stamp five different discriminators, so
    the [reference_type] of a reference image tells which constructor
    built it, whatever the arguments. *)
Theorem reference_types_distinct
    (i1 i2 i3 i4 i5 : option Image) (n1 n2 n3 n4 n5 : option Z)
    (mask : option MaskReferenceConfig) (control : option ControlReferenceConfig)
    (style : option StyleReferenceConfig) (subject : option SubjectReferenceConfig) :
  NoDup [ raw_reference_type (RawReferenceImage_init i1 n1);
          mask_reference_type (MaskReferenceImage_init i2 n2 mask);
          control_reference_type (ControlReferenceImage_init i3 n3 control);
          style_reference_type (StyleReferenceImage_init i4 n4 style);
          subject_reference_type (SubjectReferenceImage_init i5 n5 subject) ].
Proof. apply (bool_decide_unpack _). by vm_compute. Qed.
